(** * robot.api.interfaces: optional base classes for libraries

    A shallow embedding of [src/robot/api/interfaces.py] and of the part of
    Python's object model the module relies on: classes with a namespace,
    attribute lookup along the method resolution order, [abc.ABC] with
    [@abstractmethod], and exceptions.  Instance state is passed explicitly:
    a method maps the instance [__dict__] and its positional arguments to an
    outcome and the new [__dict__]. *)

From Stdlib Require Import ZArith Ascii String DecimalString DecimalNat.
From stdpp Require Import base decidable option list strings gmap.

Local Open Scope string_scope.
Local Open Scope list_scope.
Local Set Warnings "-register-all".

(** ** Python values, exceptions and outcomes *)

(** The values libraries and the framework exchange through the interface:
    [Any] restricted to the shapes the type aliases of the module name. *)
Inductive value :=
| VNone
| VBool (b : bool)
| VInt (n : Z)
| VStr (s : string)
| VType (name : string)
| VList (xs : list value)
| VTuple (xs : list value)
| VDict (items : list (string * value)).

(** Exceptions.  [Failure] and [SkipExecution] are the two exceptions by which
    a keyword reports the FAIL and the SKIP status; [Error] is any other
    exception, by class name and message. *)
Inductive exn :=
| NotImplementedError
| TypeError (msg : string)
| AttributeError (name : string)
| Failure (msg : string)
| SkipExecution (msg : string)
| Error (cls msg : string).

Inductive outcome (A : Type) :=
| Return (v : A)
| Raise (e : exn).
Arguments Return {A} v.
Arguments Raise {A} e.

(** ** Objects *)

(** The instance [__dict__]. *)
Abbreviation attrs := (gmap string value).

(** A function defined in a class body.  [isabstractmethod] is the
    [__isabstractmethod__] flag that [@abstractmethod] sets; [code] is the
    body, applied to [self]'s state and the positional arguments. *)
Record function := Def {
  isabstractmethod : bool;
  code : attrs → list value → outcome value * attrs
}.

(** A class: its name, the functions its body defines, and its
    [__getattr__] hook when the body defines one (given a name, the hook
    returns a method or raises [AttributeError], here [None]). *)
Record class := Class {
  cls_name : string;
  namespace : gmap string function;
  getattr_hook : option (string → option function)
}.

(** An instance knows the method resolution order of its type (the type
    itself first, [object] last) and carries its [__dict__]. *)
Record instance := Instance {
  type_mro : list class;
  inst_dict : attrs
}.

(** [object] and [abc.ABC] define none of the names of the interface. *)
Definition object : class := Class "object" ∅ None.
Definition ABC : class := Class "ABC" ∅ None.

(** Attribute lookup on the type: the first class of the MRO that defines
    the name. *)
Fixpoint type_lookup (mro : list class) (n : string) : option function :=
  match mro with
  | [] => None
  | c :: rest =>
      match namespace c !! n with
      | Some f => Some f
      | None => type_lookup rest n
      end
  end.

(** The first [__getattr__] hook along the MRO. *)
Fixpoint getattr_lookup (mro : list class) : option (string → option function) :=
  match mro with
  | [] => None
  | c :: rest =>
      match getattr_hook c with
      | Some h => Some h
      | None => getattr_lookup rest
      end
  end.

(** All names visible on a type, each bound as [type_lookup] finds it. *)
Definition class_namespace (mro : list class) : gmap string function :=
  foldr (λ c acc, namespace c ∪ acc) ∅ mro.

(** [__abstractmethods__] as [ABCMeta] computes it: the names that resolve
    to a function still flagged abstract. *)
Definition abstractmethods (mro : list class) : gset string :=
  dom (filter (λ kv, isabstractmethod kv.2 = true) (class_namespace mro)).

Inductive attribute :=
| BoundMethod (f : function)
| Data (v : value).

(** [getattr(obj, name)]: functions are non-data descriptors, so the
    instance [__dict__] comes first, then the type, then [__getattr__]. *)
Definition getattr (o : instance) (n : string) : outcome attribute :=
  match inst_dict o !! n with
  | Some v => Return (Data v)
  | None =>
      match type_lookup (type_mro o) n with
      | Some f => Return (BoundMethod f)
      | None =>
          match getattr_lookup (type_mro o) with
          | Some hook =>
              match hook n with
              | Some f => Return (BoundMethod f)
              | None => Raise (AttributeError n)
              end
          | None => Raise (AttributeError n)
          end
      end
  end.

(** ** Computations on an instance *)

(** State and exceptions: a computation runs on an instance and either
    returns or raises, leaving the instance as it is by then. *)
Definition M (A : Type) : Type := instance → outcome A * instance.

Definition ret {A} (a : A) : M A := λ o, (Return a, o).
Definition throw {A} (e : exn) : M A := λ o, (Raise e, o).
Definition bind {A B} (m : M A) (k : A → M B) : M B :=
  λ o, match m o with
       | (Return a, o') => k a o'
       | (Raise e, o') => (Raise e, o')
       end.

#[global] Instance M_ret : MRet M := @ret.
#[global] Instance M_bind : MBind M := λ A B k m, bind m k.

Fixpoint mapM {A B} (f : A → M B) (l : list A) : M (list B) :=
  match l with
  | [] => mret []
  | a :: l' => b ← f a; bs ← mapM f l'; mret (b :: bs)
  end.

(** Calling a bound method: the body runs on the instance [__dict__]. *)
Definition apply_method (f : function) (args : list value) : M value :=
  λ o, let '(r, d) := code f (inst_dict o) args in
       (r, Instance (type_mro o) d).

(** A method call [obj.name(a1, ..., an)]. *)
Definition call_method (n : string) (args : list value) : M value :=
  λ o, match getattr o n with
       | Return (BoundMethod f) => apply_method f args o
       | Return (Data _) => (Raise (TypeError "object is not callable"), o)
       | Raise e => (Raise e, o)
       end.

(** [cls()]: [object.__new__] refuses a class with abstract methods left. *)
Definition instantiate (mro : list class) : outcome instance :=
  if decide (abstractmethods mro = ∅)
  then Return (Instance mro ∅)
  else Raise (TypeError "Can't instantiate abstract class").

(** ** The module *)

(** The message of the [TypeError] a call with the wrong number of
    positional arguments raises. *)
Definition arity_error : exn := TypeError "wrong number of positional arguments".

Module DynamicLibrary.

(** [@abstractmethod def get_keyword_names(self)]: [raise NotImplementedError]. *)
Definition get_keyword_names : function :=
  Def true (λ self args,
    match args with
    | [] => (Raise NotImplementedError, self)
    | _ => (Raise arity_error, self)
    end).

(** [@abstractmethod def run_keywords(self, name, args, named)]:
    [raise NotImplementedError]. *)
Definition run_keywords : function :=
  Def true (λ self args,
    match args with
    | [name; args; named] => (Raise NotImplementedError, self)
    | _ => (Raise arity_error, self)
    end).

(** [def get_keyword_documentation(self, name)]: [return None]. *)
Definition get_keyword_documentation : function :=
  Def false (λ self args,
    match args with
    | [name] => (Return VNone, self)
    | _ => (Raise arity_error, self)
    end).

(** [def get_keyword_arguments(self, name)]: [return None]. *)
Definition get_keyword_arguments : function :=
  Def false (λ self args,
    match args with
    | [name] => (Return VNone, self)
    | _ => (Raise arity_error, self)
    end).

(** [def get_keyword_types(self, name)]: [return None]. *)
Definition get_keyword_types : function :=
  Def false (λ self args,
    match args with
    | [name] => (Return VNone, self)
    | _ => (Raise arity_error, self)
    end).

(** [def get_keyword_tags(self, name)]: [return None]. *)
Definition get_keyword_tags : function :=
  Def false (λ self args,
    match args with
    | [name] => (Return VNone, self)
    | _ => (Raise arity_error, self)
    end).

(** [def get_keyword_source(self, name)]: [return None]. *)
Definition get_keyword_source : function :=
  Def false (λ self args,
    match args with
    | [name] => (Return VNone, self)
    | _ => (Raise arity_error, self)
    end).

(** [class DynamicLibrary(ABC)]. *)
Definition cls : class :=
  Class "DynamicLibrary"
    (list_to_map
       [("get_keyword_names", get_keyword_names);
        ("run_keywords", run_keywords);
        ("get_keyword_documentation", get_keyword_documentation);
        ("get_keyword_arguments", get_keyword_arguments);
        ("get_keyword_types", get_keyword_types);
        ("get_keyword_tags", get_keyword_tags);
        ("get_keyword_source", get_keyword_source)])
    None.

Definition mro : list class := [cls; ABC; object].

End DynamicLibrary.

Module HybridLibrary.

(** [@abstractmethod def get_keyword_names(self)]: [raise NotImplementedError]. *)
Definition get_keyword_names : function :=
  Def true (λ self args,
    match args with
    | [] => (Raise NotImplementedError, self)
    | _ => (Raise arity_error, self)
    end).

(** [class HybridLibrary(ABC)]. *)
Definition cls : class :=
  Class "HybridLibrary"
    (list_to_map [("get_keyword_names", get_keyword_names)])
    None.

Definition mro : list class := [cls; ABC; object].

End HybridLibrary.

(** The names of the interface. *)
Definition required_methods : list string :=
  ["get_keyword_names"; "run_keywords"].

Definition optional_methods : list string :=
  ["get_keyword_documentation"; "get_keyword_arguments"; "get_keyword_types";
   "get_keyword_tags"; "get_keyword_source"].

(** A library instance inherits [m] from [DynamicLibrary] unchanged:
    nothing in its [__dict__] shadows [m], neither its own class nor a class
    before [DynamicLibrary] in the MRO defines [m]. *)
Definition inherits_default (o : instance) (m : string) : Prop :=
  inst_dict o !! m = None ∧
  ∃ pre post,
    type_mro o = pre ++ DynamicLibrary.cls :: post ∧
    Forall (λ c, namespace c !! m = None) pre.

(** A library in the dynamic style that keeps every optional method of the
    base class: one keyword, [Greet], that returns its first argument. *)
Module Greeter.

Definition get_keyword_names : function :=
  Def false (λ self args,
    match args with
    | [] => (Return (VList [VStr "Greet"]), self)
    | _ => (Raise arity_error, self)
    end).

Definition run_keywords : function :=
  Def false (λ self args,
    match args with
    | [VStr "Greet"; VList (who :: _); _] => (Return who, self)
    | [_; _; _] => (Raise (Failure "no such keyword"), self)
    | _ => (Raise arity_error, self)
    end).

Definition cls : class :=
  Class "Greeter"
    (list_to_map
       [("get_keyword_names", get_keyword_names);
        ("run_keywords", run_keywords)])
    None.

Definition mro : list class := cls :: DynamicLibrary.mro.

Definition lib : instance := Instance mro ∅.

End Greeter.

(** A library that derives from both base classes,
    [class Both(DynamicLibrary, HybridLibrary)]: it lists the keyword
    [greet], has the method [greet], and its [run_keywords] runs the method
    of the given name. The MRO is Python's C3 linearisation. *)
Module Both.

Definition get_keyword_names : function :=
  Def false (λ self args,
    match args with
    | [] => (Return (VList [VStr "greet"]), self)
    | _ => (Raise arity_error, self)
    end).

Definition greet : function :=
  Def false (λ self args,
    match args with
    | [who] => (Return who, self)
    | _ => (Raise arity_error, self)
    end).

Definition run_keywords : function :=
  Def false (λ self args,
    match args with
    | [VStr "greet"; VList xs; VDict _] => code greet self xs
    | [_; _; _] => (Raise (Failure "no such keyword"), self)
    | _ => (Raise arity_error, self)
    end).

Definition cls : class :=
  Class "Both"
    (list_to_map
       [("get_keyword_names", get_keyword_names);
        ("run_keywords", run_keywords);
        ("greet", greet)])
    None.

Definition mro : list class :=
  [cls; DynamicLibrary.cls; HybridLibrary.cls; ABC; object].

Definition lib : instance := Instance mro ∅.

End Both.

(** A library in the hybrid style: [get_keyword_names] lists one method of
    the class and one keyword that [__getattr__] supplies. *)
Module Hybrid.

Definition get_keyword_names : function :=
  Def false (λ self args,
    match args with
    | [] => (Return (VList [VStr "open_door"; VStr "close_door"]), self)
    | _ => (Raise arity_error, self)
    end).

Definition open_door : function :=
  Def false (λ self args, (Return (VStr "opened"), self)).

Definition close_door : function :=
  Def false (λ self args, (Return (VStr "closed"), self)).

Definition cls : class :=
  Class "Hybrid"
    (list_to_map
       [("get_keyword_names", get_keyword_names);
        ("open_door", open_door)])
    (Some (λ n, if decide (n = "close_door") then Some close_door else None)).

Definition mro : list class := cls :: HybridLibrary.mro.

Definition lib : instance := Instance mro ∅.

End Hybrid.

(** ** Contracts *)

(** A class, given by its MRO, implements a base class of the module when
    it derives from it and has no abstract method left, so that it can be
    instantiated. *)
Definition implements (base : class) (mro : list class) : Prop :=
  base ∈ mro ∧ abstractmethods mro = ∅.

(** The base classes are optional (module docstring): a class provides
    operations when each resolves to a function that is not abstract. *)
Definition provides (ops : list string) (mro : list class) : Prop :=
  ∀ m, m ∈ ops → ∃ f, type_lookup mro m = Some f ∧ isabstractmethod f = false.

(** A keyword name of a hybrid library matches an implemented keyword
    method (docstring of [HybridLibrary.get_keyword_names]): a class of the
    MRO defines a method of that name, or [__getattr__] returns one, and no
    instance attribute hides it. *)
Definition keyword_method (o : instance) (n : string) (f : function) : Prop :=
  inst_dict o !! n = None ∧
  (type_lookup (type_mro o) n = Some f ∨
   type_lookup (type_mro o) n = None ∧
   ∃ hook, getattr_lookup (type_mro o) = Some hook ∧ hook n = Some f).

(** ** Enumerating keywords *)

(** [get_keyword_names] returns a list of strings ([List[Name]]); the
    strings are taken as they are. *)
Definition as_name (v : value) : M string :=
  match v with
  | VStr s => mret s
  | _ => throw (TypeError "keyword name must be a string")
  end.

Definition as_names (v : value) : M (list string) :=
  match v with
  | VList xs => mapM as_name xs
  | _ => throw (TypeError "keyword names must be a list")
  end.

Definition keyword_names : M (list string) :=
  v ← call_method "get_keyword_names" []; as_names v.

(** ** The caller *)

(** The status of an executed keyword. *)
Inductive status :=
| PASS (result : value)
| FAIL (msg : string)
| SKIP (msg : string)
| UNEXPECTED (e : exn).

(** Modelled from the spec: the framework's keyword runner is not in
    [src/]; this is how the spec says the caller reads the outcome of
    [run_keywords]: the return value on a normal return, the explicit
    failed or skipped outcome, and an unexpected failure, carrying the
    error as it was raised, for any other error. *)
Definition keyword_status (r : outcome value) : status :=
  match r with
  | Return v => PASS v
  | Raise (Failure msg) => FAIL msg
  | Raise (SkipExecution msg) => SKIP msg
  | Raise e => UNEXPECTED e
  end.

(** Modelled from the spec: the caller executes a keyword of a dynamic
    library through [run_keywords], with the name, the positional arguments
    as a list and the named arguments as a dictionary. *)
Definition execute_keyword (name : string) (args : list value)
    (named : list (string * value)) (o : instance) : status * instance :=
  let '(r, o') := call_method "run_keywords" [VStr name; VList args; VDict named] o in
  (keyword_status r, o').

(** Modelled from the spec: the framework's library inspection is not in
    [src/]; the caller asks an introspection method about a keyword with
    the name as [get_keyword_names] returned it. *)
Definition ask (method name : string) : M value :=
  call_method method [VStr name].

(** A hybrid library conforms when every name it returns matches an
    implemented keyword method. *)
Definition hybrid_conforming (o : instance) : Prop :=
  ∃ names o',
    keyword_names o = (Return names, o') ∧
    ∀ n, n ∈ names → ∃ f, keyword_method o' n f.

(** A library satisfies the dynamic contract: its class implements
    [DynamicLibrary], [get_keyword_names] returns a list of names, and
    [run_keywords] is a method of the library that is not abstract. *)
Definition satisfies_dynamic (o : instance) : Prop :=
  implements DynamicLibrary.cls (type_mro o) ∧
  (∃ names o', keyword_names o = (Return names, o')) ∧
  (∃ f, getattr o "run_keywords" = Return (BoundMethod f) ∧
        isabstractmethod f = false).

(** A library satisfies the hybrid contract: its class implements
    [HybridLibrary] and every name it returns is a keyword method found by
    member lookup. *)
Definition satisfies_hybrid (o : instance) : Prop :=
  implements HybridLibrary.cls (type_mro o) ∧ hybrid_conforming o.

(** The two contracts exclude each other: a library that satisfies one of
    them does not satisfy both. *)
Definition contracts_mutually_exclusive : Prop :=
  ∀ o,
    satisfies_dynamic o ∨ satisfies_hybrid o →
    ¬ (satisfies_dynamic o ∧ satisfies_hybrid o).

(** ** Argument specifications *)

(** [ArgumentSpec]: a list whose entries are a string (a name with a
    possible default, [arg] or [arg=1]), a one-tuple (a name) or a two-tuple
    (a name and a default). *)
Inductive ArgumentSpecItem :=
| ArgStr (s : string)
| ArgTuple1 (name : string)
| ArgTuple2 (name : string) (default : value).

Abbreviation ArgumentSpec := (list ArgumentSpecItem).

(** What an entry stands for: an argument with or without a default, the
    varargs [*name], the lone [*] that separates named-only arguments, or
    the kwargs [**name]. *)
Inductive arg_kind :=
| Plain (has_default : bool)
| VarArgs
| NamedOnlyMarker
| KwArgs.

Definition item_name (item : ArgumentSpecItem) : string :=
  match item with
  | ArgStr s => s
  | ArgTuple1 name => name
  | ArgTuple2 name _ => name
  end.

Fixpoint contains_equals (s : string) : bool :=
  match s with
  | EmptyString => false
  | String c s' => if Ascii.eqb c "=" then true else contains_equals s'
  end.

Definition item_has_default (item : ArgumentSpecItem) : bool :=
  match item with
  | ArgStr s => contains_equals s
  | ArgTuple1 _ => false
  | ArgTuple2 _ _ => true
  end.

(** Modelled from the spec: the framework's parser of argument
    specifications is not in [src/]; an entry is read by the rules in the
    docstring of [get_keyword_arguments]: kwargs have a [**] prefix, varargs
    a [*] prefix, a lone [*] is the separator, and a default is embedded
    after an equal sign or given as the second member of a tuple. *)
Definition kind_of (item : ArgumentSpecItem) : arg_kind :=
  if String.prefix "**" (item_name item) then KwArgs
  else if String.eqb (item_name item) "*" then NamedOnlyMarker
  else if String.prefix "*" (item_name item) then VarArgs
  else Plain (item_has_default item).

(** What a left-to-right reading of a specification remembers. *)
Record parser_state := ParserState {
  seen_default : bool;
  named_only : bool;
  seen_kwargs : bool
}.

(** Modelled from the spec: one step of that reading, refusing what the
    docstring rules out: anything after kwargs, a second varargs or a
    separator once arguments are named-only, and a normal argument without
    a default after one with a default. *)
Definition accept (st : parser_state) (k : arg_kind) : option parser_state :=
  if seen_kwargs st then None
  else match k with
       | KwArgs => Some (ParserState (seen_default st) (named_only st) true)
       | VarArgs | NamedOnlyMarker =>
           if named_only st then None
           else Some (ParserState (seen_default st) true false)
       | Plain true =>
           if named_only st then Some st
           else Some (ParserState true false false)
       | Plain false =>
           if seen_default st && negb (named_only st) then None else Some st
       end.

Fixpoint parse_from (st : parser_state) (ks : list arg_kind) : option parser_state :=
  match ks with
  | [] => Some st
  | k :: ks' => st' ← accept st k; parse_from st' ks'
  end.

Definition well_formed (spec : ArgumentSpec) : bool :=
  bool_decide (is_Some (parse_from (ParserState false false false) (kind_of <$> spec))).

(** Entry [i] is a normal (positional) argument, with or without a default:
    no varargs, separator or kwargs comes before it. *)
Definition is_positional (ks : list arg_kind) (i : nat) (d : bool) : Prop :=
  ks !! i = Some (Plain d) ∧ ∀ j, j < i → ∃ d', ks !! j = Some (Plain d').

(** The invariant of argument specifications, in the words of the spec. *)
Record argspec_invariant (ks : list arg_kind) : Prop := ArgspecInvariant {
  defaults_follow :
    ∀ i j d, i < j → is_positional ks i true → is_positional ks j d → d = true;
  one_varargs :
    ∀ i j, ks !! i = Some VarArgs → ks !! j = Some VarArgs → i = j;
  varargs_follows_positional :
    ∀ i j d, ks !! i = Some VarArgs → is_positional ks j d → j < i;
  one_kwargs :
    ∀ i j, ks !! i = Some KwArgs → ks !! j = Some KwArgs → i = j;
  kwargs_last :
    ∀ i, ks !! i = Some KwArgs → S i = length ks
}.

(** ** Type specifications *)

(** [Union[type, str]]: an actual type, or a type name or alias. *)
Inductive TypeInfo :=
| ActualType (cls : string)
| TypeName (alias : string).

(** [TypeSpec]: types by name in a dictionary, or by position in a list
    where [None] marks an argument without type information. *)
Inductive TypeSpec :=
| TypesByName (types : gmap string TypeInfo)
| TypesByPosition (types : list (option TypeInfo)).

(** Modelled from the spec: the framework's mapping of types to arguments
    is not in [src/]; the type of the [i]-th argument of a keyword whose
    arguments are [names], by name when the specification is a dictionary
    and by index when it is a list. *)
Definition type_of_argument (names : list string) (types : option TypeSpec)
    (i : nat) : option TypeInfo :=
  name ← names !! i;
  match types with
  | None => None
  | Some (TypesByName d) => d !! name
  | Some (TypesByPosition l) => mjoin (l !! i)
  end.

(** The dictionary that names the types a list gives by position. *)
Definition types_by_name (names : list string) (types : list (option TypeInfo))
    : gmap string TypeInfo :=
  list_to_map (omap (λ nt, (nt.1,.) <$> nt.2) (zip names types)).

(** ** Source locators *)

Fixpoint has_colon (s : string) : bool :=
  match s with
  | EmptyString => false
  | String c s' => if Ascii.eqb c ":" then true else has_colon s'
  end.

(** [s.rsplit(':', 1)]: the text before and after the last colon of [s],
    when it has one. *)
Fixpoint rsplit_colon (s : string) : option (string * string) :=
  match s with
  | EmptyString => None
  | String c s' =>
      match rsplit_colon s' with
      | Some (path, lineno) => Some (String c path, lineno)
      | None => if Ascii.eqb c ":" then Some (EmptyString, s') else None
      end
  end.

(** A line number in decimal digits, read and written. *)
Definition parse_lineno (s : string) : option nat :=
  Nat.of_uint <$> NilZero.uint_of_string s.

Definition lineno_string (n : nat) : string :=
  NilZero.string_of_uint (Nat.to_uint n).

(** Modelled from the spec: the framework's reading of what
    [get_keyword_source] returns is not in [src/]; [path:lineno] gives the
    path and the line, a missing path is replaced by the source path of the
    library, and a source without a line number is a path. *)
Definition split_source (library_source : string) (source : option string)
    : string * option nat :=
  match source with
  | None => (library_source, None)
  | Some s =>
      match rsplit_colon s with
      | Some (path, lineno) =>
          match parse_lineno lineno with
          | Some n => (if decide (path = "") then library_source else path, Some n)
          | None => (s, None)
          end
      | None => (s, None)
      end
  end.

(** A source ends with a line number: it has the shape [path:lineno]
    (with a possibly empty path). *)
Definition ends_with_lineno (s : string) : Prop :=
  ∃ path lineno n, s = path +:+ ":" +:+ lineno ∧ parse_lineno lineno = Some n.

(** ** Subclasses *)

(** Every name [DynamicLibrary] defines. *)
Definition interface_methods : list string :=
  required_methods ++ optional_methods.

(** The classes of an MRO that come before a base class leave a name to
    it: none of them defines the name, none has a [__getattr__]. *)
Definition leave_alone (pre : list class) (m : string) : Prop :=
  Forall (λ c, namespace c !! m = None ∧ getattr_hook c = None) pre.

(** A public name: it does not start with an underscore. Whatever [object]
    and [ABC] define themselves ([__repr__], [__init__], [_abc_impl], ...)
    starts with one, so a public name is found on a library only through
    the classes modelled here. *)
Definition public_name (m : string) : bool :=
  negb (String.prefix "_" m).

(** A hybrid library with two keyword methods and no [__getattr__]. *)
Module Doors.

Definition cls : class :=
  Class "Doors"
    (list_to_map
       [("get_keyword_names", Hybrid.get_keyword_names);
        ("open_door", Hybrid.open_door);
        ("close_door", Hybrid.close_door)])
    None.

Definition mro : list class := cls :: HybridLibrary.mro.

Definition lib : instance := Instance mro ∅.

End Doors.

(* ================================================================== *)
(** * Properties *)

(** Membership in a list written out, and the shape of an MRO that reaches
    [DynamicLibrary] through classes that leave a method alone. *)
Ltac elem_of_literal :=
  repeat match goal with
         | |- _ ∈ _ => first [left | right]
         end.

Ltac inherits_through pre post :=
  split; [reflexivity|];
  exists pre, post; split; [reflexivity | repeat constructor].

(** ** Attribute lookup *)

Lemma type_lookup_app_None (pre rest : list class) (m : string) :
  Forall (λ c, namespace c !! m = None) pre →
  type_lookup (pre ++ rest) m = type_lookup rest m.
Proof.
  induction 1 as [|c pre Hc _ IH]; simpl; [done|].
  by rewrite Hc.
Qed.

Lemma class_namespace_lookup (mro : list class) (m : string) :
  class_namespace mro !! m = type_lookup mro m.
Proof.
  induction mro as [|c mro IH]; simpl; [apply lookup_empty|].
  rewrite lookup_union, <- IH.
  by destruct (namespace c !! m), (class_namespace mro !! m).
Qed.

Lemma elem_of_abstractmethods (mro : list class) (m : string) :
  m ∈ abstractmethods mro ↔
  ∃ f, type_lookup mro m = Some f ∧ isabstractmethod f = true.
Proof.
  unfold abstractmethods. rewrite elem_of_dom. unfold is_Some.
  setoid_rewrite map_lookup_filter_Some.
  setoid_rewrite class_namespace_lookup. naive_solver.
Qed.

(** What a method found on the type does when called. *)
Lemma call_method_resolved (o : instance) (m : string) (f : function)
    (args : list value) :
  inst_dict o !! m = None →
  type_lookup (type_mro o) m = Some f →
  call_method m args o = apply_method f args o.
Proof.
  intros Hd Hf. unfold call_method, getattr. by rewrite Hd, Hf.
Qed.

(** ** The defaults of the optional methods *)

(** Each optional method is defined by [DynamicLibrary], is not abstract,
    and its body returns [None] on any state and any name, leaving the
    state as it was. *)
Lemma optional_method_default (m : string) :
  m ∈ optional_methods →
  ∃ f, namespace DynamicLibrary.cls !! m = Some f ∧
       isabstractmethod f = false ∧
       ∀ self name, code f self [name] = (Return VNone, self).
Proof.
  unfold optional_methods. rewrite !elem_of_cons, elem_of_nil.
  intros [->|[->|[->|[->|[->|[]]]]]]; eexists; (split; [reflexivity|done]).
Qed.

Lemma inherited_default_call (o : instance) (m : string) (name : value) :
  m ∈ optional_methods →
  inherits_default o m →
  call_method m [name] o = (Return VNone, o).
Proof.
  intros Hm [Hd (pre & post & Hmro & Hpre)].
  destruct (optional_method_default m Hm) as (f & Hf & _ & Hcode).
  rewrite (call_method_resolved o m f); [|done|].
  - unfold apply_method. rewrite Hcode. by destruct o.
  - rewrite Hmro, type_lookup_app_None by done.
    cbn [type_lookup]. by rewrite Hf.
Qed.

(** C1: on every library instance that does not override it, and for every
    keyword name (the reserved [__intro__] and [__init__] included), each of
    the five optional introspection methods returns [None]: the call does
    not raise. *)
Theorem optional_methods_return_None (o : instance) (m : string) (name : value) :
  m ∈ optional_methods →
  inherits_default o m →
  call_method m [name] o = (Return VNone, o) ∧
  (∀ e o', call_method m [name] o ≠ (Raise e, o')).
Proof.
  intros Hm Ho. rewrite (inherited_default_call o m name Hm Ho).
  split; [done|]. intros e o' [=].
Qed.

Lemma optional_methods_return_None_witness :
  call_method "get_keyword_documentation" [VStr "__intro__"] Greeter.lib
    = (Return VNone, Greeter.lib) ∧
  (∀ e o', call_method "get_keyword_documentation" [VStr "__intro__"] Greeter.lib
             ≠ (Raise e, o')).
Proof.
  apply (optional_methods_return_None Greeter.lib).
  - unfold optional_methods. elem_of_literal.
  - inherits_through [Greeter.cls] [ABC; object].
Defined.

(** C10: the defaults of the optional methods are constant: two calls, of
    any two optional methods, with any names, on any instances that inherit
    them, return the same value, [None], and each call leaves its instance as
    it found it. *)
Theorem optional_defaults_noninterference
    (o1 o2 : instance) (m1 m2 : string) (n1 n2 : value) :
  m1 ∈ optional_methods → m2 ∈ optional_methods →
  inherits_default o1 m1 → inherits_default o2 m2 →
  (call_method m1 [n1] o1).1 = (call_method m2 [n2] o2).1 ∧
  (call_method m1 [n1] o1).1 = Return VNone ∧
  (call_method m1 [n1] o1).2 = o1 ∧
  (call_method m2 [n2] o2).2 = o2.
Proof.
  intros Hm1 Hm2 H1 H2.
  by rewrite (inherited_default_call o1 m1 n1), (inherited_default_call o2 m2 n2).
Qed.

Lemma optional_defaults_noninterference_witness :
  (call_method "get_keyword_tags" [VStr "Greet"] Greeter.lib).1
    = (call_method "get_keyword_source" [VStr "__init__"]
         (Instance Greeter.mro {["greeted" := VInt 3]})).1 ∧
  (call_method "get_keyword_tags" [VStr "Greet"] Greeter.lib).1 = Return VNone ∧
  (call_method "get_keyword_tags" [VStr "Greet"] Greeter.lib).2 = Greeter.lib ∧
  (call_method "get_keyword_source" [VStr "__init__"]
     (Instance Greeter.mro {["greeted" := VInt 3]})).2
    = Instance Greeter.mro {["greeted" := VInt 3]}.
Proof.
  apply optional_defaults_noninterference.
  - unfold optional_methods. elem_of_literal.
  - unfold optional_methods. elem_of_literal.
  - inherits_through [Greeter.cls] [ABC; object].
  - inherits_through [Greeter.cls] [ABC; object].
Defined.

(** ** The required methods *)

Lemma type_lookup_elem_of (mro : list class) (c : class) (m : string) (g : function) :
  c ∈ mro → namespace c !! m = Some g → is_Some (type_lookup mro m).
Proof.
  induction 1 as [c mro|c c' mro _ IH]; intros Hg; simpl.
  - by rewrite Hg.
  - destruct (namespace c' !! m); [done|]. by apply IH.
Qed.

Lemma not_abstract_of_concrete (mro : list class) (m : string) (f : function) :
  abstractmethods mro = ∅ →
  type_lookup mro m = Some f →
  isabstractmethod f = false.
Proof.
  intros Hc Hf. destruct (isabstractmethod f) eqn:Ha; [|done].
  assert (m ∈ abstractmethods mro) as Hin
    by (apply elem_of_abstractmethods; eauto).
  rewrite Hc in Hin. by apply not_elem_of_empty in Hin.
Qed.

Lemma instantiate_abstract (mro : list class) (m : string) :
  m ∈ abstractmethods mro →
  instantiate mro = Raise (TypeError "Can't instantiate abstract class").
Proof.
  intros Hin. unfold instantiate. case_decide as He; [|done].
  rewrite He in Hin. by apply not_elem_of_empty in Hin.
Qed.

Lemma required_method_abstract (m : string) :
  m ∈ required_methods →
  ∃ f, namespace DynamicLibrary.cls !! m = Some f ∧ isabstractmethod f = true.
Proof.
  unfold required_methods. rewrite !elem_of_cons, elem_of_nil.
  intros [->|[->|[]]]; eexists; (split; [reflexivity|done]).
Qed.

(** A class that derives from [DynamicLibrary] and leaves a required method
    as it is cannot be instantiated. *)
Lemma required_method_left_abstract (pre post : list class) (m : string) :
  m ∈ required_methods →
  Forall (λ c, namespace c !! m = None) pre →
  instantiate (pre ++ DynamicLibrary.cls :: post)
    = Raise (TypeError "Can't instantiate abstract class").
Proof.
  intros Hm Hpre. destruct (required_method_abstract m Hm) as (f & Hf & Ha).
  apply (instantiate_abstract _ m), elem_of_abstractmethods.
  exists f. split; [|done].
  rewrite type_lookup_app_None by done. cbn [type_lookup]. by rewrite Hf.
Qed.

(** C3: [get_keyword_names] and [run_keywords] are the required operations
    of [DynamicLibrary]: they are its abstract methods, the class itself
    cannot be instantiated, nor can a subclass that leaves one of them as it
    is, and the base-class versions raise [NotImplementedError]; the
    optional methods, in contrast, are not abstract and return [None]. *)
Theorem required_methods_are_abstract :
  abstractmethods DynamicLibrary.mro = {["get_keyword_names"; "run_keywords"]} ∧
  type_lookup DynamicLibrary.mro "get_keyword_names"
    = Some DynamicLibrary.get_keyword_names ∧
  type_lookup DynamicLibrary.mro "run_keywords"
    = Some DynamicLibrary.run_keywords ∧
  (∀ self, code DynamicLibrary.get_keyword_names self []
             = (Raise NotImplementedError, self)) ∧
  (∀ self name args named,
     code DynamicLibrary.run_keywords self [name; args; named]
       = (Raise NotImplementedError, self)) ∧
  instantiate DynamicLibrary.mro
    = Raise (TypeError "Can't instantiate abstract class") ∧
  (∀ pre post m,
     m ∈ required_methods →
     Forall (λ c, namespace c !! m = None) pre →
     instantiate (pre ++ DynamicLibrary.cls :: post)
       = Raise (TypeError "Can't instantiate abstract class")) ∧
  (∀ m, m ∈ optional_methods →
     ∃ f, type_lookup DynamicLibrary.mro m = Some f ∧
          isabstractmethod f = false ∧
          ∀ self name, code f self [name] = (Return VNone, self)).
Proof.
  split_and!; try done.
  - apply required_method_left_abstract.
  - intros m Hm. destruct (optional_method_default m Hm) as (f & Hf & Hrest).
    exists f. split; [|done]. cbn [DynamicLibrary.mro type_lookup].
    by rewrite Hf.
Qed.

Lemma required_methods_are_abstract_witness :
  instantiate ([Class "Partial"
                  (list_to_map [("get_keyword_names", Greeter.get_keyword_names)])
                  None]
               ++ DynamicLibrary.cls :: [ABC; object])
    = Raise (TypeError "Can't instantiate abstract class").
Proof.
  destruct required_methods_are_abstract as (_ & _ & _ & _ & _ & _ & H & _).
  apply (H _ _ "run_keywords").
  - unfold required_methods. elem_of_literal.
  - repeat constructor.
Defined.

(** ** The two contracts *)

Lemma implements_provides (base : class) (mro : list class) (ops : list string) :
  implements base mro →
  (∀ m, m ∈ ops → is_Some (namespace base !! m)) →
  provides ops mro.
Proof.
  intros [Hin Hc] Hops m Hm. destruct (Hops m Hm) as [g Hg].
  destruct (type_lookup_elem_of mro base m g Hin Hg) as [f Hf].
  exists f. split; [done|]. by eapply not_abstract_of_concrete.
Qed.

(** ** Enumeration and lookup of keywords *)

Lemma getattr_keyword_method (o : instance) (n : string) (f : function) :
  keyword_method o n f ↔ getattr o n = Return (BoundMethod f).
Proof.
  unfold keyword_method, getattr. split.
  - intros [-> [->|[-> (hook & -> & ->)]]]; done.
  - destruct (inst_dict o !! n); [done|].
    destruct (type_lookup (type_mro o) n) as [g|].
    { intros [= ->]. auto. }
    destruct (getattr_lookup (type_mro o)) as [hook|]; [|done].
    destruct (hook n) as [g|] eqn:Hg; [|done].
    intros [= ->]. split; [done|]. right. eauto.
Qed.

Lemma call_method_getattr (o : instance) (n : string) (f : function)
    (args : list value) :
  getattr o n = Return (BoundMethod f) →
  call_method n args o = apply_method f args o.
Proof. intros H. unfold call_method. by rewrite H. Qed.

(** The strings of the list are taken one by one, unchanged. *)
Lemma mapM_as_name_strings (names : list string) (o : instance) :
  mapM as_name (VStr <$> names) o = (Return names, o).
Proof.
  induction names as [|n names IH]; [done|].
  cbn [fmap list_fmap mapM]. unfold mbind, M_bind, bind. cbn [as_name].
  unfold mret at 1, M_ret, ret. by rewrite IH.
Qed.

Lemma mapM_as_name_inv (xs : list value) (names : list string) (o o' : instance) :
  mapM as_name xs o = (Return names, o') →
  xs = VStr <$> names ∧ o' = o.
Proof.
  revert names. induction xs as [|x xs IH]; intros names.
  - intros [= <- <-]. done.
  - cbn [mapM]. unfold mbind, M_bind, bind.
    destruct x; try (intros [=]; fail). cbn [as_name].
    unfold mret at 1, M_ret, ret.
    destruct (mapM as_name xs o) as [[names'|e] o''] eqn:Hxs; [|intros [=]].
    intros [= <- <-]. destruct (IH names' eq_refl) as [-> ->]. done.
Qed.

(** [keyword_names] returns exactly the strings the library's
    [get_keyword_names] returned. *)
Lemma keyword_names_verbatim (o o' : instance) (names : list string) :
  keyword_names o = (Return names, o') ↔
  call_method "get_keyword_names" [] o = (Return (VList (VStr <$> names)), o').
Proof.
  unfold keyword_names, mbind, M_bind, bind.
  destruct (call_method "get_keyword_names" [] o) as [[v|e] o1]; [|by split].
  split.
  - destruct v; try (intros [=]; fail). cbn [as_names].
    intros H. apply mapM_as_name_inv in H as [-> ->]. done.
  - intros [= -> ->]. cbn [as_names]. apply mapM_as_name_strings.
Qed.

(** C8: [HybridLibrary] requires one operation, [get_keyword_names], and
    defines nothing else: neither [run_keywords] nor an optional
    introspection method nor [__getattr__]. A name matches an implemented
    keyword method exactly when [getattr] on the library returns that
    method, so every name a conforming library returns resolves by member
    lookup to its keyword method, which is then what a call runs. *)
Theorem hybrid_names_resolve_by_getattr :
  dom (namespace HybridLibrary.cls) = {["get_keyword_names"]} ∧
  abstractmethods HybridLibrary.mro = {["get_keyword_names"]} ∧
  getattr_hook HybridLibrary.cls = None ∧
  (∀ m, m ∈ "run_keywords" :: optional_methods →
        type_lookup HybridLibrary.mro m = None) ∧
  (∀ o n f, keyword_method o n f ↔ getattr o n = Return (BoundMethod f)) ∧
  (∀ o, hybrid_conforming o →
     ∃ names o',
       keyword_names o = (Return names, o') ∧
       Forall (λ n, ∃ f, getattr o' n = Return (BoundMethod f) ∧
                         ∀ args, call_method n args o' = apply_method f args o')
              names).
Proof.
  split_and!; try done.
  - intros m. unfold optional_methods. rewrite !elem_of_cons, elem_of_nil.
    by intros [->|[->|[->|[->|[->|[->|[]]]]]]].
  - apply getattr_keyword_method.
  - intros o (names & o' & Hnames & Hall). exists names, o'. split; [done|].
    apply Forall_forall. intros n Hn. destruct (Hall n Hn) as [f Hf].
    apply getattr_keyword_method in Hf. exists f. split; [done|].
    intros args. by apply call_method_getattr.
Qed.

Lemma Hybrid_conforming : hybrid_conforming Hybrid.lib.
Proof.
  exists ["open_door"; "close_door"], Hybrid.lib. split; [reflexivity|].
  intros n. rewrite !elem_of_cons, elem_of_nil. intros [->|[->|[]]].
  - exists Hybrid.open_door. split; [reflexivity|]. by left.
  - exists Hybrid.close_door. split; [reflexivity|]. right.
    split; [reflexivity|]. eexists. split; reflexivity.
Qed.

Lemma hybrid_names_resolve_by_getattr_witness :
  ∃ names o',
    keyword_names Hybrid.lib = (Return names, o') ∧
    Forall (λ n, ∃ f, getattr o' n = Return (BoundMethod f) ∧
                      ∀ args, call_method n args o' = apply_method f args o')
           names.
Proof.
  destruct hybrid_names_resolve_by_getattr as (_ & _ & _ & _ & _ & H).
  apply H, Hybrid_conforming.
Defined.

(** ** Libraries that satisfy one contract, the other, or both *)

Lemma Greeter_satisfies_dynamic : satisfies_dynamic Greeter.lib.
Proof.
  split_and!.
  - split; [unfold Greeter.lib, Greeter.mro, DynamicLibrary.mro; simpl;
            elem_of_literal | by vm_compute].
  - exists ["Greet"], Greeter.lib. reflexivity.
  - exists Greeter.run_keywords. split; reflexivity.
Qed.

Lemma Greeter_not_hybrid_conforming : ¬ hybrid_conforming Greeter.lib.
Proof.
  intros (names & o' & Hnames & Hall).
  assert (keyword_names Greeter.lib = (Return ["Greet"], Greeter.lib)) as Hk
    by reflexivity.
  rewrite Hk in Hnames. injection Hnames as <- <-.
  destruct (Hall "Greet") as [f Hf]; [left|].
  apply getattr_keyword_method in Hf. discriminate Hf.
Qed.

Lemma Hybrid_satisfies_hybrid : satisfies_hybrid Hybrid.lib.
Proof.
  split; [|apply Hybrid_conforming].
  split; [unfold Hybrid.lib, Hybrid.mro, HybridLibrary.mro; simpl;
          elem_of_literal | by vm_compute].
Qed.

Lemma Both_satisfies_both :
  satisfies_dynamic Both.lib ∧ satisfies_hybrid Both.lib.
Proof.
  assert (abstractmethods Both.mro = ∅) as Hc by by vm_compute.
  split.
  - split_and!.
    + split; [unfold Both.lib, Both.mro; simpl; elem_of_literal | done].
    + exists ["greet"], Both.lib. reflexivity.
    + exists Both.run_keywords. split; reflexivity.
  - split.
    + split; [unfold Both.lib, Both.mro; simpl; elem_of_literal | done].
    + exists ["greet"], Both.lib. split; [reflexivity|].
      intros n. rewrite elem_of_cons, elem_of_nil. intros [->|[]].
      exists Both.greet. split; [reflexivity|]. by left.
Qed.

(** C9, as stated, fails: a library deriving from both base classes that
    lists [greet], has the method [greet] and runs it from [run_keywords]
    satisfies the dynamic contract and the hybrid contract at once. *)
Lemma contracts_not_mutually_exclusive : ¬ contracts_mutually_exclusive.
Proof.
  intros Hex. destruct Both_satisfies_both as [HD HH].
  apply (Hex Both.lib); [by left | by split].
Qed.

(** C9, amended: the two contracts are separate base classes, neither
    derived from the other, and only [DynamicLibrary] requires
    [run_keywords]. A library that satisfies the dynamic contract provides
    both required operations, one that satisfies the hybrid contract
    provides [get_keyword_names], and whatever provides the former provides
    the latter. A library may satisfy the dynamic contract alone (its
    keywords exist only inside [run_keywords]), the hybrid contract alone
    (it has no [run_keywords]), or both. *)
Theorem contracts_differ_by_run_keywords :
  (DynamicLibrary.cls ∉ HybridLibrary.mro) ∧
  (HybridLibrary.cls ∉ DynamicLibrary.mro) ∧
  abstractmethods DynamicLibrary.mro = {["get_keyword_names"; "run_keywords"]} ∧
  abstractmethods HybridLibrary.mro = {["get_keyword_names"]} ∧
  (∀ o, satisfies_dynamic o →
        provides ["get_keyword_names"; "run_keywords"] (type_mro o)) ∧
  (∀ o, satisfies_hybrid o → provides ["get_keyword_names"] (type_mro o)) ∧
  (∀ mro, provides ["get_keyword_names"; "run_keywords"] mro →
          provides ["get_keyword_names"] mro) ∧
  (satisfies_dynamic Greeter.lib ∧ ¬ hybrid_conforming Greeter.lib ∧
   ¬ satisfies_hybrid Greeter.lib) ∧
  (satisfies_hybrid Hybrid.lib ∧
   getattr Hybrid.lib "run_keywords" = Raise (AttributeError "run_keywords") ∧
   ¬ satisfies_dynamic Hybrid.lib) ∧
  (satisfies_dynamic Both.lib ∧ satisfies_hybrid Both.lib).
Proof.
  split_and!; try done.
  - intros H. unfold HybridLibrary.mro in H.
    repeat (apply elem_of_cons in H as [H|H]; [by apply (f_equal cls_name) in H|]).
    by apply elem_of_nil in H.
  - intros H. unfold DynamicLibrary.mro in H.
    repeat (apply elem_of_cons in H as [H|H]; [by apply (f_equal cls_name) in H|]).
    by apply elem_of_nil in H.
  - intros o (H & _). apply (implements_provides _ _ _ H).
    intros m. rewrite !elem_of_cons, elem_of_nil. intros [->|[->|[]]]; by eexists.
  - intros o (H & _). apply (implements_provides _ _ _ H).
    intros m. rewrite !elem_of_cons, elem_of_nil. intros [->|[]]; by eexists.
  - intros mro H m Hm. apply H. revert Hm.
    rewrite !elem_of_cons, !elem_of_nil. tauto.
  - apply Greeter_satisfies_dynamic.
  - apply Greeter_not_hybrid_conforming.
  - intros [_ H]. by apply Greeter_not_hybrid_conforming.
  - apply Hybrid_satisfies_hybrid.
  - intros (_ & _ & f & Hf & _). discriminate Hf.
  - apply Both_satisfies_both.
  - apply Both_satisfies_both.
Qed.

Lemma contracts_differ_by_run_keywords_witness :
  provides ["get_keyword_names"; "run_keywords"] Both.mro ∧
  provides ["get_keyword_names"] Both.mro.
Proof.
  destruct contracts_differ_by_run_keywords
    as (_ & _ & _ & _ & HD & _ & Hsub & _ & _ & HB & _).
  pose proof (HD Both.lib HB) as H.
  split; [exact H | exact (Hsub _ H)].
Defined.

(** ** Executing and inspecting keywords *)

(** The base class puts nothing between the caller and the method the
    library defines: the call runs that method on the arguments given. *)
Lemma call_method_verbatim (o : instance) (m : string) (f : function)
    (args : list value) :
  inst_dict o !! m = None →
  type_lookup (type_mro o) m = Some f →
  call_method m args o
    = ((code f (inst_dict o) args).1,
       Instance (type_mro o) (code f (inst_dict o) args).2).
Proof.
  intros Hd Hf. rewrite (call_method_resolved o m f) by done.
  unfold apply_method. by destruct (code f (inst_dict o) args).
Qed.

Lemma arity_of_run_keywords (self : attrs) (args : list value) :
  length args ≠ 3 →
  code DynamicLibrary.run_keywords self args = (Raise arity_error, self).
Proof. by destruct args as [|? [|? [|? [|? ?]]]]. Qed.

(** C2: [run_keywords] takes the keyword name, the list of positional
    arguments and the dictionary of named arguments (the base method accepts
    these three and nothing else). A call on a library reaches the
    [run_keywords] the library defines and hands its outcome to the caller
    as it is: the return value, the explicit failure (FAIL), the explicit
    skip (SKIP), or any other error unmodified, which the caller treats as
    an unexpected failure. *)
Theorem run_keywords_outcome (o : instance) (f : function) (name : string)
    (args : list value) (named : list (string * value)) :
  inst_dict o !! "run_keywords" = None →
  type_lookup (type_mro o) "run_keywords" = Some f →
  (∀ self xs, length xs ≠ 3 →
     code DynamicLibrary.run_keywords self xs = (Raise arity_error, self)) ∧
  (abstractmethods (type_mro o) = ∅ → isabstractmethod f = false) ∧
  (∀ r d,
     code f (inst_dict o) [VStr name; VList args; VDict named] = (r, d) →
     call_method "run_keywords" [VStr name; VList args; VDict named] o
       = (r, Instance (type_mro o) d) ∧
     execute_keyword name args named o
       = (keyword_status r, Instance (type_mro o) d)) ∧
  (∀ v, keyword_status (Return v) = PASS v) ∧
  (∀ msg, keyword_status (Raise (Failure msg)) = FAIL msg) ∧
  (∀ msg, keyword_status (Raise (SkipExecution msg)) = SKIP msg) ∧
  (∀ e, (∀ msg, e ≠ Failure msg) → (∀ msg, e ≠ SkipExecution msg) →
        keyword_status (Raise e) = UNEXPECTED e).
Proof.
  intros Hd Hf. split_and!; try done.
  - apply arity_of_run_keywords.
  - intros Hc. by eapply not_abstract_of_concrete.
  - intros r d Hcode.
    assert (call_method "run_keywords" [VStr name; VList args; VDict named] o
            = (r, Instance (type_mro o) d)) as Hcall.
    { rewrite (call_method_verbatim o _ f) by done. by rewrite Hcode. }
    split; [done|]. unfold execute_keyword. by rewrite Hcall.
  - intros e HF HS. destruct e; try done.
    + by destruct (HF msg).
    + by destruct (HS msg).
Qed.

Lemma run_keywords_outcome_witness :
  call_method "run_keywords" [VStr "Greet"; VList [VStr "world"]; VDict []] Greeter.lib
    = (Return (VStr "world"), Greeter.lib) ∧
  execute_keyword "Greet" [VStr "world"] [] Greeter.lib
    = (PASS (VStr "world"), Greeter.lib) ∧
  execute_keyword "Wave" [] [] Greeter.lib
    = (FAIL "no such keyword", Greeter.lib).
Proof.
  destruct (run_keywords_outcome Greeter.lib Greeter.run_keywords
              "Greet" [VStr "world"] [] eq_refl eq_refl)
    as (_ & _ & Hgreet & _).
  destruct (run_keywords_outcome Greeter.lib Greeter.run_keywords
              "Wave" [] [] eq_refl eq_refl)
    as (_ & _ & Hwave & _).
  destruct (Hgreet (Return (VStr "world")) ∅ eq_refl) as [H1 H2].
  destruct (Hwave (Raise (Failure "no such keyword")) ∅ eq_refl) as [_ H3].
  split_and!; [exact H1 | exact H2 | exact H3].
Defined.

(** C4: the names [get_keyword_names] returns are the names of the
    contract. The caller receives exactly the strings the library returned;
    and when it uses such a name with another method, an introspection
    method or [run_keywords], the method the library has for it, its own or
    the inherited default, runs on that very string: nothing between
    enumeration and the later calls normalises or transforms a name. *)
Theorem names_are_used_verbatim (o o' : instance) (names : list string) :
  keyword_names o = (Return names, o') →
  call_method "get_keyword_names" [] o = (Return (VList (VStr <$> names)), o') ∧
  (∀ n m f lib,
     n ∈ names → m ∈ optional_methods →
     inst_dict lib !! m = None →
     type_lookup (type_mro lib) m = Some f →
     ask m n lib
       = ((code f (inst_dict lib) [VStr n]).1,
          Instance (type_mro lib) (code f (inst_dict lib) [VStr n]).2)) ∧
  (∀ n f args named lib,
     n ∈ names →
     inst_dict lib !! "run_keywords" = None →
     type_lookup (type_mro lib) "run_keywords" = Some f →
     execute_keyword n args named lib
       = (keyword_status (code f (inst_dict lib) [VStr n; VList args; VDict named]).1,
          Instance (type_mro lib)
            (code f (inst_dict lib) [VStr n; VList args; VDict named]).2)).
Proof.
  intros Hnames. split_and!.
  - by apply keyword_names_verbatim.
  - intros n m f lib _ _ Hd Hf. unfold ask. by apply call_method_verbatim.
  - intros n f args named lib _ Hd Hf. unfold execute_keyword.
    by rewrite (call_method_verbatim lib _ f).
Qed.

Lemma names_are_used_verbatim_witness :
  call_method "get_keyword_names" [] Greeter.lib
    = (Return (VList [VStr "Greet"]), Greeter.lib) ∧
  ask "get_keyword_tags" "Greet" Greeter.lib = (Return VNone, Greeter.lib) ∧
  execute_keyword "Greet" [VStr "you"] [] Greeter.lib
    = (PASS (VStr "you"), Greeter.lib).
Proof.
  destruct (names_are_used_verbatim Greeter.lib Greeter.lib ["Greet"] eq_refl)
    as (Hnames & Hask & Hrun).
  split_and!.
  - exact Hnames.
  - apply (Hask "Greet" "get_keyword_tags" DynamicLibrary.get_keyword_tags
             Greeter.lib); [left | | reflexivity | reflexivity].
    unfold optional_methods. elem_of_literal.
  - apply (Hrun "Greet" Greeter.run_keywords [VStr "you"] [] Greeter.lib);
      [left | reflexivity | reflexivity].
Defined.

(** ** Argument specifications *)

Section parser.
Implicit Types (st : parser_state) (k : arg_kind) (ks : list arg_kind).

(** Once the arguments are named-only they stay so. *)
Lemma accept_named_only st k st' :
  accept st k = Some st' → named_only st = true → named_only st' = true.
Proof.
  unfold accept. destruct st as [sd no sk]; simpl. intros H ->.
  destruct sd, sk, k as [[]| | |]; simpl in H; by simplify_eq.
Qed.

(** Nothing is accepted after kwargs. *)
Lemma parse_from_after_kwargs st ks st' :
  seen_kwargs st = true → parse_from st ks = Some st' → ks = [].
Proof.
  intros Hk. destruct ks as [|k ks]; [done|]. simpl.
  unfold accept. by rewrite Hk.
Qed.

Lemma parse_from_kwargs_last st ks st' i :
  parse_from st ks = Some st' → ks !! i = Some KwArgs → S i = length ks.
Proof.
  revert st i. induction ks as [|k ks IH]; intros st i; [done|].
  simpl. destruct (accept st k) as [st1|] eqn:Hacc; [|done]. simpl.
  intros Hp. destruct i as [|i]; simpl.
  - intros [= ->]. unfold accept in Hacc.
    destruct (seen_kwargs st); [done|]. simplify_eq.
    by rewrite (λ H, parse_from_after_kwargs _ ks st' H Hp).
  - intros Hi. f_equal. by eapply IH.
Qed.

(** Among named-only arguments there is neither varargs nor separator. *)
Lemma parse_from_named_only st ks st' i :
  named_only st = true → parse_from st ks = Some st' →
  ks !! i ≠ Some VarArgs ∧ ks !! i ≠ Some NamedOnlyMarker.
Proof.
  revert st i. induction ks as [|k ks IH]; intros st i Hno; [done|].
  simpl. destruct (accept st k) as [st1|] eqn:Hacc; [|done]. simpl.
  intros Hp. destruct i as [|i]; simpl.
  - unfold accept in Hacc. rewrite Hno in Hacc.
    destruct (seen_kwargs st); [done|].
    destruct k as [[]| | |]; simplify_eq; done.
  - eapply IH; [|done]. by eapply accept_named_only.
Qed.

Lemma parse_from_one_varargs st ks st' i j :
  parse_from st ks = Some st' →
  ks !! i = Some VarArgs → ks !! j = Some VarArgs → i = j.
Proof.
  revert st i j. induction ks as [|k ks IH]; intros st i j; [done|].
  simpl. destruct (accept st k) as [st1|] eqn:Hacc; [|done]. simpl.
  intros Hp Hi Hj.
  assert (k = VarArgs → named_only st1 = true) as Hno.
  { intros ->. unfold accept in Hacc.
    destruct (seen_kwargs st), (named_only st); by simplify_eq. }
  destruct i as [|i], j as [|j]; simpl in *; [done| | |].
  - simplify_eq. by destruct (parse_from_named_only st1 ks st' j (Hno eq_refl) Hp).
  - simplify_eq. by destruct (parse_from_named_only st1 ks st' i (Hno eq_refl) Hp).
  - f_equal. by eapply IH.
Qed.

Lemma is_positional_tail k ks j d :
  is_positional (k :: ks) (S j) d →
  (∃ d', k = Plain d') ∧ is_positional ks j d.
Proof.
  intros [Hj Hbefore]. split.
  - destruct (Hbefore 0) as [d' Hd']; [lia|]. exists d'. by simplify_eq/=.
  - split; [done|]. intros i Hi. apply (Hbefore (S i)). lia.
Qed.

(** After a normal argument with a default, every normal argument has one. *)
Lemma parse_from_seen_default st ks st' j d :
  seen_default st = true → named_only st = false →
  parse_from st ks = Some st' →
  is_positional ks j d → d = true.
Proof.
  revert st j. induction ks as [|k ks IH]; intros st j Hsd Hno.
  { by intros _ [? _]. }
  simpl. destruct (accept st k) as [st1|] eqn:Hacc; [|done]. simpl.
  intros Hp Hpos.
  assert (∀ d0, k = Plain d0 →
            d0 = true ∧ seen_default st1 = true ∧ named_only st1 = false) as Hk.
  { intros d0 ->. unfold accept in Hacc. rewrite Hsd, Hno in Hacc.
    destruct (seen_kwargs st); [done|]. destruct d0; by simplify_eq/=. }
  destruct j as [|j].
  - destruct Hpos as [Hpos _]. simpl in Hpos. simplify_eq.
    by destruct (Hk d eq_refl).
  - apply is_positional_tail in Hpos as [[d0 ->] Hpos].
    destruct (Hk d0 eq_refl) as (_ & Hsd1 & Hno1). by eapply IH.
Qed.

Lemma parse_from_defaults_follow st ks st' i j d :
  named_only st = false →
  parse_from st ks = Some st' →
  i < j → is_positional ks i true → is_positional ks j d → d = true.
Proof.
  revert st i j. induction ks as [|k ks IH]; intros st i j Hno.
  { by intros _ _ [? _]. }
  simpl. destruct (accept st k) as [st1|] eqn:Hacc; [|done]. simpl.
  intros Hp Hij Hi Hj. destruct j as [|j]; [lia|].
  apply is_positional_tail in Hj as [[d0 ->] Hj].
  assert (named_only st1 = false ∧ (d0 = true → seen_default st1 = true))
    as [Hno1 Hsd1].
  { unfold accept in Hacc. rewrite Hno in Hacc.
    destruct (seen_kwargs st); [done|].
    destruct d0; [by simplify_eq|].
    destruct (seen_default st); by simplify_eq/=. }
  destruct i as [|i].
  - destruct Hi as [Hi _]. simpl in Hi. simplify_eq.
    by eapply (parse_from_seen_default st1 ks st' j d); auto.
  - apply is_positional_tail in Hi as [_ Hi].
    eapply (IH st1 i j); [done..|lia|done|done].
Qed.

End parser.

(** Named-only arguments are accepted with and without defaults in any
    order. *)
Lemma parse_from_named_only_plain (st : parser_state) (ks : list arg_kind) :
  named_only st = true → seen_kwargs st = false →
  Forall (λ k, ∃ d, k = Plain d) ks →
  parse_from st ks = Some st.
Proof.
  intros Hno Hk. induction 1 as [|k ks [d ->] _ IH]; [done|].
  simpl. unfold accept. rewrite Hk, Hno.
  destruct d; simpl; [done|]. by rewrite andb_false_r.
Qed.

(** C5: every well-formed argument specification satisfies the invariant:
    among the normal (positional) arguments those with a default follow
    those without; there is at most one varargs entry and it follows all
    normal arguments; there is at most one kwargs entry and, when present,
    it is the last entry. Named-only arguments are not restricted in this
    way: after the separator, arguments with and without defaults are
    well-formed in any order. *)
Theorem well_formed_argspec_invariant (spec : ArgumentSpec) :
  (well_formed spec = true → argspec_invariant (kind_of <$> spec)) ∧
  (Forall (λ item, ∃ d, kind_of item = Plain d) spec →
   well_formed (ArgStr "*" :: spec) = true).
Proof.
  split.
  { unfold well_formed. intros Hwf.
    apply bool_decide_eq_true in Hwf as [st' Hp]. split.
    - intros i j d Hij Hi Hj.
      eapply (parse_from_defaults_follow (ParserState false false false));
        [reflexivity | exact Hp | exact Hij | exact Hi | exact Hj].
    - intros i j. exact (parse_from_one_varargs _ _ _ i j Hp).
    - intros i j d Hi [Hj Hbefore].
      destruct (decide (j < i)) as [|Hge]; [done|].
      destruct (decide (i = j)) as [->|Hne]; [congruence|].
      destruct (Hbefore i) as [d' Hd']; [lia|congruence].
    - intros i j Hi Hj.
      pose proof (parse_from_kwargs_last _ _ _ _ Hp Hi).
      pose proof (parse_from_kwargs_last _ _ _ _ Hp Hj). lia.
    - intros i. exact (parse_from_kwargs_last _ _ _ i Hp). }
  intros Hplain. unfold well_formed. apply bool_decide_eq_true.
  cbn [fmap list_fmap]. change (kind_of (ArgStr "*")) with NamedOnlyMarker.
  cbn [parse_from accept seen_kwargs named_only seen_default mbind option_bind].
  rewrite parse_from_named_only_plain; [done..|].
  by apply Forall_fmap.
Qed.

Lemma well_formed_argspec_invariant_witness :
  argspec_invariant
    (kind_of <$> [ArgStr "a"; ArgTuple2 "b" (VInt 1); ArgStr "*rest";
                  ArgStr "k=1"; ArgTuple1 "m"; ArgStr "**kw"]) ∧
  well_formed [ArgStr "*"; ArgStr "k=1"; ArgTuple1 "m"] = true.
Proof.
  split.
  - apply well_formed_argspec_invariant. reflexivity.
  - apply well_formed_argspec_invariant.
    repeat constructor; eexists; reflexivity.
Defined.

(** ** Type specifications *)

Lemma types_by_name_cons (n : string) (ns : list string)
    (t : option TypeInfo) (ts : list (option TypeInfo)) :
  types_by_name (n :: ns) (t :: ts)
    = match t with
      | Some ty => <[n:=ty]> (types_by_name ns ts)
      | None => types_by_name ns ts
      end.
Proof. by destruct t. Qed.

Lemma types_by_name_fresh (n : string) (ns : list string)
    (ts : list (option TypeInfo)) :
  n ∉ ns → types_by_name ns ts !! n = None.
Proof.
  revert ts. induction ns as [|n' ns IH]; intros ts Hn; [done|].
  apply not_elem_of_cons in Hn as [Hne Hn].
  destruct ts as [|t ts]; [done|]. rewrite types_by_name_cons.
  destruct t; [rewrite lookup_insert_ne by done|]; by apply IH.
Qed.

(** A list of types and the dictionary that names them give every argument
    the same type. *)
Lemma types_by_position_by_name (names : list string)
    (l : list (option TypeInfo)) (i : nat) :
  NoDup names →
  type_of_argument names (Some (TypesByPosition l)) i
    = type_of_argument names (Some (TypesByName (types_by_name names l))) i.
Proof.
  unfold type_of_argument. intros Hnd. revert l i.
  induction Hnd as [|n ns Hn Hnd IH]; intros l i; [done|].
  destruct l as [|t l].
  { destruct i; simpl; [done|]. by destruct (ns !! i). }
  rewrite types_by_name_cons. destruct i as [|i]; simpl.
  - destruct t; [by rewrite lookup_insert_eq|].
    by rewrite types_by_name_fresh.
  - specialize (IH l i). destruct (ns !! i) as [name|] eqn:Hname; [|done].
    simpl in *. rewrite IH. destruct t; [|done].
    rewrite lookup_insert_ne; [done|]. intros ->.
    apply Hn. by eapply list_elem_of_lookup_2.
Qed.

(** C6: a type specification resolves against the arguments of the keyword
    in both shapes: a dictionary gives an argument the type under its name,
    a list the type at its index, and the two agree on what they say; both
    may cover the arguments in part: a name left out of the dictionary, a
    [None] in the list and an index past the end of the list all mean that
    the argument has no type information, as does no specification at
    all. *)
Theorem type_spec_resolves (names : list string) :
  (∀ d i name, names !! i = Some name →
     type_of_argument names (Some (TypesByName d)) i = d !! name) ∧
  (∀ l i, i < length names →
     type_of_argument names (Some (TypesByPosition l)) i = mjoin (l !! i)) ∧
  (∀ d i name, names !! i = Some name → d !! name = None →
     type_of_argument names (Some (TypesByName d)) i = None) ∧
  (∀ l i, l !! i = Some None →
     type_of_argument names (Some (TypesByPosition l)) i = None) ∧
  (∀ l i, (length l ≤ i)%nat →
     type_of_argument names (Some (TypesByPosition l)) i = None) ∧
  (∀ i, type_of_argument names None i = None) ∧
  (NoDup names → ∀ l i,
     type_of_argument names (Some (TypesByPosition l)) i
       = type_of_argument names (Some (TypesByName (types_by_name names l))) i).
Proof.
  unfold type_of_argument. split_and!.
  - by intros d i name ->.
  - intros l i Hi. by destruct (lookup_lt_is_Some_2 names i Hi) as [name ->].
  - by intros d i name -> Hd.
  - intros l i ->. by destruct (names !! i).
  - intros l i Hi. rewrite (lookup_ge_None_2 l i Hi). by destruct (names !! i).
  - intros i. by destruct (names !! i).
  - intros Hnd l i. by apply types_by_position_by_name.
Qed.

Lemma type_spec_resolves_witness :
  type_of_argument ["arg"; "second"]
    (Some (TypesByName {["second" := TypeName "int"]})) 1 = Some (TypeName "int") ∧
  type_of_argument ["arg"; "second"]
    (Some (TypesByName {["second" := TypeName "int"]})) 0 = None ∧
  type_of_argument ["arg"; "second"]
    (Some (TypesByPosition [None; Some (TypeName "int")])) 1 = Some (TypeName "int") ∧
  type_of_argument ["arg"; "second"]
    (Some (TypesByPosition [None; Some (TypeName "int")])) 0 = None ∧
  type_of_argument ["arg"; "second"]
    (Some (TypesByPosition [Some (ActualType "str")])) 1 = None.
Proof.
  destruct (type_spec_resolves ["arg"; "second"])
    as (Hname & Hpos & Hout & Hnone & Hend & _ & _).
  split_and!.
  - by rewrite (Hname _ 1 "second").
  - by apply (Hout _ 0 "arg").
  - rewrite Hpos; [reflexivity | simpl; lia].
  - by apply Hnone.
  - apply Hend. simpl. lia.
Defined.

(** ** Source locators *)

Lemma rsplit_colon_None (s : string) :
  has_colon s = false → rsplit_colon s = None.
Proof.
  induction s as [|c s IH]; simpl; [done|].
  destruct (Ascii.eqb c ":"); [done|]. by intros ->%IH.
Qed.

(** The split is at the last colon. *)
Lemma rsplit_colon_app (path lineno : string) :
  has_colon lineno = false →
  rsplit_colon (path +:+ ":" +:+ lineno) = Some (path, lineno).
Proof.
  intros Hl. induction path as [|c path IH]; simpl.
  - by rewrite rsplit_colon_None.
  - by rewrite IH.
Qed.

Lemma rsplit_colon_Some (s path lineno : string) :
  rsplit_colon s = Some (path, lineno) →
  s = path +:+ ":" +:+ lineno ∧ has_colon lineno = false.
Proof.
  revert path. induction s as [|c s IH]; intros path; simpl; [done|].
  destruct (rsplit_colon s) as [[p l]|] eqn:Hs.
  - intros [= <- <-]. destruct (IH p eq_refl) as [-> Hl]. done.
  - destruct (Ascii.eqb_spec c ":") as [->|]; [|done].
    intros [= <- <-]. split; [done|].
    clear IH. induction s as [|c s IH]; simpl in *; [done|].
    destruct (rsplit_colon s) as [[p l]|]; [done|].
    destruct (Ascii.eqb c ":"); [done|]. by apply IH.
Qed.

(** A string of decimal digits has no colon. *)
Lemma digits_no_colon (s : string) (d : Decimal.uint) :
  NilEmpty.uint_of_string s = Some d → has_colon s = false.
Proof.
  revert d. induction s as [|c s IH]; intros d; simpl; [done|].
  destruct (NilEmpty.uint_of_string s) as [d'|]; [|done].
  intros H. rewrite (IH d' eq_refl).
  apply uint_of_char_spec in H.
  by destruct H as [[-> _]|[[-> _]|[[-> _]|[[-> _]|[[-> _]|
                   [[-> _]|[[-> _]|[[-> _]|[[-> _]|[-> _]]]]]]]]]].
Qed.

Lemma parse_lineno_no_colon (s : string) (n : nat) :
  parse_lineno s = Some n → has_colon s = false.
Proof.
  unfold parse_lineno. destruct s as [|c s]; [done|].
  unfold NilZero.uint_of_string.
  destruct (NilEmpty.uint_of_string (String c s)) as [d|] eqn:Hd; [|done].
  intros _. by eapply digits_no_colon.
Qed.

(** Reading a written line number gives the number back. *)
Lemma parse_lineno_string (n : nat) :
  parse_lineno (lineno_string n) = Some n.
Proof.
  unfold parse_lineno, lineno_string.
  pose proof (DecimalNat.Unsigned.of_to n) as Hn.
  destruct (Nat.to_uint n) as [|d|d|d|d|d|d|d|d|d|d] eqn:Hd;
    [by rewrite <- Hn| rewrite NilZero.usu by done..];
    simpl; by rewrite Hn.
Qed.

Lemma split_source_path_lineno (library_source path lineno : string) (n : nat) :
  parse_lineno lineno = Some n →
  split_source library_source (Some (path +:+ ":" +:+ lineno))
    = (if decide (path = "") then library_source else path, Some n).
Proof.
  intros Hn. unfold split_source.
  rewrite rsplit_colon_app by (by eapply parse_lineno_no_colon).
  by rewrite Hn.
Qed.

(** C7: a locator [path:lineno] splits into the path and the line number;
    a locator with only a line number, like [:42], gives the line, and the
    path is that of the library; a locator with only a path, without a line
    number at its end, gives the path and no line number. *)
Theorem source_locator_splits (library_source : string) :
  (∀ path n, path ≠ "" →
     split_source library_source (Some (path +:+ ":" +:+ lineno_string n))
       = (path, Some n)) ∧
  (∀ n, split_source library_source (Some (":" +:+ lineno_string n))
          = (library_source, Some n)) ∧
  (∀ path, ¬ ends_with_lineno path →
     split_source library_source (Some path) = (path, None)) ∧
  (∀ path, has_colon path = false →
     split_source library_source (Some path) = (path, None)).
Proof.
  split_and!.
  - intros path n Hpath.
    rewrite (split_source_path_lineno _ _ _ n) by apply parse_lineno_string.
    by case_decide.
  - intros n.
    exact (split_source_path_lineno library_source "" _ n (parse_lineno_string n)).
  - intros path Hnot. unfold split_source.
    destruct (rsplit_colon path) as [[p l]|] eqn:Hsplit; [|done].
    destruct (parse_lineno l) as [n|] eqn:Hn; [|done].
    destruct Hnot. exists p, l, n. split; [|done].
    by apply rsplit_colon_Some in Hsplit as [-> _].
  - intros path Hpath. unfold split_source. by rewrite rsplit_colon_None.
Qed.

Lemma source_locator_splits_witness :
  split_source "/libs/Main.py" (Some "/example/Lib.py:42")
    = ("/example/Lib.py", Some 42) ∧
  split_source "/libs/Main.py" (Some ":42") = ("/libs/Main.py", Some 42) ∧
  split_source "/libs/Main.py" (Some "/example/Lib.py")
    = ("/example/Lib.py", None).
Proof.
  destruct (source_locator_splits "/libs/Main.py") as (Hboth & Hline & _ & Hpath).
  split_and!.
  - by apply (Hboth "/example/Lib.py" 42).
  - apply (Hline 42).
  - by apply Hpath.
Defined.

(* ================================================================== *)
(** * Further properties of the two base classes *)

(** ** Which subclasses can be instantiated *)

Lemma abstractmethods_empty (mro : list class) :
  abstractmethods mro = ∅ ↔
  ∀ m f, type_lookup mro m = Some f → isabstractmethod f = false.
Proof.
  split.
  - intros He m f. by apply not_abstract_of_concrete.
  - intros Hall. apply elem_of_equiv_empty_L. intros m Hm.
    apply elem_of_abstractmethods in Hm as (f & Hf & Ha).
    by rewrite (Hall m f Hf) in Ha.
Qed.

(** A class has no abstract method left exactly when its own functions are
    concrete and it defines every method its bases leave abstract. *)
Lemma abstractmethods_cons_empty (c : class) (rest : list class) :
  abstractmethods (c :: rest) = ∅ ↔
  (∀ m f, namespace c !! m = Some f → isabstractmethod f = false) ∧
  (∀ m, m ∈ abstractmethods rest → is_Some (namespace c !! m)).
Proof.
  rewrite abstractmethods_empty. split.
  - intros Hall. split.
    + intros m f Hf. apply (Hall m). simpl. by rewrite Hf.
    + intros m Hm. apply elem_of_abstractmethods in Hm as (g & Hg & Ha).
      destruct (namespace c !! m) as [f|] eqn:Hf; [by eexists|].
      specialize (Hall m g). simpl in Hall. rewrite Hf in Hall.
      by rewrite (Hall Hg) in Ha.
  - intros [Hown Hbases] m f. simpl.
    destruct (namespace c !! m) as [f'|] eqn:Hf.
    + intros [= <-]. by eapply Hown.
    + intros Hrest. destruct (isabstractmethod f) eqn:Ha; [|done].
      destruct (Hbases m) as [f' Hf']; [|congruence].
      apply elem_of_abstractmethods. eauto.
Qed.

Lemma instantiate_Return (mro : list class) :
  instantiate mro = Return (Instance mro ∅) ↔ abstractmethods mro = ∅.
Proof. unfold instantiate. by case_decide. Qed.

(** X1: a class that derives from [DynamicLibrary] alone can be
    instantiated exactly when it defines both [get_keyword_names] and
    [run_keywords] and none of the functions it defines is abstract; in
    every other case instantiation raises [TypeError]. *)
Theorem dynamic_subclass_instantiable (c : class) :
  (instantiate (c :: DynamicLibrary.mro)
     = Return (Instance (c :: DynamicLibrary.mro) ∅) ↔
   (∀ m f, namespace c !! m = Some f → isabstractmethod f = false) ∧
   is_Some (namespace c !! "get_keyword_names") ∧
   is_Some (namespace c !! "run_keywords")) ∧
  (instantiate (c :: DynamicLibrary.mro)
     = Return (Instance (c :: DynamicLibrary.mro) ∅) ∨
   instantiate (c :: DynamicLibrary.mro)
     = Raise (TypeError "Can't instantiate abstract class")).
Proof.
  split; [|unfold instantiate; case_decide; auto].
  rewrite instantiate_Return, abstractmethods_cons_empty.
  assert (abstractmethods DynamicLibrary.mro
          = {["get_keyword_names"; "run_keywords"]}) as -> by by vm_compute.
  split.
  - intros [Hown Hbases]. split_and!; [done|apply Hbases..]; set_solver.
  - intros (Hown & Hnames & Hrun). split; [done|].
    intros m. rewrite elem_of_union, !elem_of_singleton. by intros [->| ->].
Qed.

(** X2: a class that derives from [HybridLibrary] alone can be instantiated
    exactly when it defines [get_keyword_names] and none of the functions
    it defines is abstract; [HybridLibrary] itself cannot. *)
Theorem hybrid_subclass_instantiable (c : class) :
  (instantiate (c :: HybridLibrary.mro)
     = Return (Instance (c :: HybridLibrary.mro) ∅) ↔
   (∀ m f, namespace c !! m = Some f → isabstractmethod f = false) ∧
   is_Some (namespace c !! "get_keyword_names")) ∧
  instantiate HybridLibrary.mro
    = Raise (TypeError "Can't instantiate abstract class").
Proof.
  split; [|done].
  rewrite instantiate_Return, abstractmethods_cons_empty.
  assert (abstractmethods HybridLibrary.mro = {["get_keyword_names"]}) as ->
    by by vm_compute.
  split.
  - intros [Hown Hbases]. split; [done|]. apply Hbases. set_solver.
  - intros (Hown & Hnames). split; [done|].
    intros m. rewrite elem_of_singleton. by intros ->.
Qed.

(** ** The names [DynamicLibrary] defines *)

Lemma interface_method_defined (m : string) :
  m ∈ interface_methods → is_Some (namespace DynamicLibrary.cls !! m).
Proof.
  unfold interface_methods, required_methods, optional_methods. simpl.
  rewrite !elem_of_cons, elem_of_nil.
  intros [->|[->|[->|[->|[->|[->|[->|[]]]]]]]]; by eexists.
Qed.

(** ** What the base classes do not define *)

Lemma getattr_lookup_leave_alone (pre rest : list class) (m : string) :
  leave_alone pre m →
  type_lookup (pre ++ rest) m = type_lookup rest m ∧
  getattr_lookup (pre ++ rest) = getattr_lookup rest.
Proof.
  induction 1 as [|c pre [Hc Hh] _ [IH1 IH2]]; simpl; [done|].
  by rewrite Hc, Hh.
Qed.

Lemma call_method_missing (o : instance) (pre base : list class) (m : string)
    (args : list value) :
  type_mro o = pre ++ base →
  leave_alone pre m →
  inst_dict o !! m = None →
  type_lookup base m = None →
  getattr_lookup base = None →
  call_method m args o = (Raise (AttributeError m), o).
Proof.
  intros Hmro Hpre Hd Hm Hh.
  destruct (getattr_lookup_leave_alone pre base m Hpre) as [H1 H2].
  unfold call_method, getattr. by rewrite Hd, Hmro, H1, Hm, H2, Hh.
Qed.

(** X4: [HybridLibrary] supplies no public method but
    [get_keyword_names]: on a library deriving from it, a call of any
    other public name that the library's own classes do not define
    ([run_keywords] and the introspection methods of the dynamic interface
    among them) raises [AttributeError] and leaves the library as it
    was. *)
Theorem hybrid_library_has_no_other_method (o : instance) (pre : list class)
    (m : string) (args : list value) :
  type_mro o = pre ++ HybridLibrary.mro →
  leave_alone pre m →
  inst_dict o !! m = None →
  public_name m = true →
  m ≠ "get_keyword_names" →
  call_method m args o = (Raise (AttributeError m), o).
Proof.
  intros Hmro Hpre Hd _ Hm.
  apply (call_method_missing o pre HybridLibrary.mro); try done.
  unfold HybridLibrary.mro. cbn [type_lookup].
  assert (namespace HybridLibrary.cls !! m = None) as ->; [|done].
  apply not_elem_of_dom.
  assert (dom (namespace HybridLibrary.cls)
          = ({["get_keyword_names"]} : gset string)) as -> by by vm_compute.
  by apply not_elem_of_singleton.
Qed.

Lemma hybrid_library_has_no_other_method_witness :
  call_method "get_keyword_documentation" [VStr "open_door"] Doors.lib
    = (Raise (AttributeError "get_keyword_documentation"), Doors.lib) ∧
  call_method "run_keywords" [VStr "open_door"; VList []; VDict []] Doors.lib
    = (Raise (AttributeError "run_keywords"), Doors.lib).
Proof.
  split.
  - apply (hybrid_library_has_no_other_method Doors.lib [Doors.cls]);
      [reflexivity | by repeat constructor | reflexivity | reflexivity | done].
  - apply (hybrid_library_has_no_other_method Doors.lib [Doors.cls]);
      [reflexivity | by repeat constructor | reflexivity | reflexivity | done].
Defined.

Lemma not_interface_method_undefined (m : string) :
  m ∉ interface_methods → namespace DynamicLibrary.cls !! m = None.
Proof.
  intros Hm. apply eq_None_not_Some. intros Hsome.
  apply elem_of_dom in Hsome.
  assert (dom (namespace DynamicLibrary.cls)
          = (list_to_set interface_methods : gset string)) as Hdom
    by by vm_compute.
  rewrite Hdom in Hsome. by apply elem_of_list_to_set in Hsome.
Qed.

(** X5: [DynamicLibrary] defines its seven methods and no other public
    name, and has no [__getattr__]: on a library deriving from it, a call
    of any other public name that the library's own classes do not define
    raises [AttributeError]. This holds for [run_keyword], the name the
    class docstring uses: a library that implements [run_keywords] does
    not thereby have [run_keyword]. *)
Theorem dynamic_library_has_no_other_method (o : instance) (pre : list class)
    (m : string) (args : list value) :
  type_mro o = pre ++ DynamicLibrary.mro →
  leave_alone pre m →
  inst_dict o !! m = None →
  public_name m = true →
  m ∉ interface_methods →
  call_method m args o = (Raise (AttributeError m), o).
Proof.
  intros Hmro Hpre Hd _ Hm.
  apply (call_method_missing o pre DynamicLibrary.mro); try done.
  unfold DynamicLibrary.mro. cbn [type_lookup].
  by rewrite (not_interface_method_undefined m Hm).
Qed.

Lemma dynamic_library_has_no_other_method_witness :
  call_method "run_keyword" [VStr "Greet"; VList [VStr "you"]; VDict []] Greeter.lib
    = (Raise (AttributeError "run_keyword"), Greeter.lib).
Proof.
  apply (dynamic_library_has_no_other_method Greeter.lib [Greeter.cls]).
  - reflexivity.
  - by repeat constructor.
  - reflexivity.
  - reflexivity.
  - unfold interface_methods, required_methods, optional_methods. simpl.
    rewrite !elem_of_cons, elem_of_nil.
    intros [H|[H|[H|[H|[H|[H|[H|[]]]]]]]]; discriminate H.
Defined.

(** ** Deriving from both base classes *)

Lemma abstractmethods_ext (mro1 mro2 : list class) :
  (∀ n, type_lookup mro1 n = type_lookup mro2 n) →
  abstractmethods mro1 = abstractmethods mro2.
Proof.
  intros Hext. unfold abstractmethods. f_equal. f_equal.
  apply map_eq. intros n. by rewrite !class_namespace_lookup.
Qed.

Lemma type_lookup_app_ext (pre mro1 mro2 : list class) :
  (∀ n, type_lookup mro1 n = type_lookup mro2 n) →
  ∀ n, type_lookup (pre ++ mro1) n = type_lookup (pre ++ mro2) n.
Proof.
  intros Hext n. induction pre as [|c pre IH]; simpl; [done|].
  by rewrite IH.
Qed.

Lemma hybrid_other_undefined (n : string) :
  n ≠ "get_keyword_names" → namespace HybridLibrary.cls !! n = None.
Proof.
  intros Hn. apply not_elem_of_dom.
  assert (dom (namespace HybridLibrary.cls)
          = ({["get_keyword_names"]} : gset string)) as -> by by vm_compute.
  by apply not_elem_of_singleton.
Qed.

Lemma type_lookup_dynamic_then_hybrid (n : string) :
  type_lookup [DynamicLibrary.cls; HybridLibrary.cls; ABC; object] n
    = type_lookup DynamicLibrary.mro n.
Proof.
  destruct (decide (n = "get_keyword_names")) as [->|Hn]; [done|].
  unfold DynamicLibrary.mro. cbn [type_lookup].
  by rewrite (hybrid_other_undefined n Hn).
Qed.

Lemma type_lookup_hybrid_then_dynamic (n : string) :
  type_lookup [HybridLibrary.cls; DynamicLibrary.cls; ABC; object] n
    = type_lookup DynamicLibrary.mro n.
Proof.
  destruct (decide (n = "get_keyword_names")) as [->|Hn]; [done|].
  unfold DynamicLibrary.mro. cbn [type_lookup].
  by rewrite (hybrid_other_undefined n Hn).
Qed.

(** X6: deriving from [HybridLibrary] besides [DynamicLibrary] adds
    nothing: with [HybridLibrary] after [DynamicLibrary] in the MRO every
    name resolves as without it, and in either order of the two bases the
    methods left abstract are those left abstract with [DynamicLibrary]
    alone, so the class can be instantiated in the same cases. *)
Theorem hybrid_base_adds_nothing (pre : list class) :
  (∀ n, type_lookup (pre ++ [DynamicLibrary.cls; HybridLibrary.cls; ABC; object]) n
        = type_lookup (pre ++ DynamicLibrary.mro) n) ∧
  abstractmethods (pre ++ [DynamicLibrary.cls; HybridLibrary.cls; ABC; object])
    = abstractmethods (pre ++ DynamicLibrary.mro) ∧
  abstractmethods (pre ++ [HybridLibrary.cls; DynamicLibrary.cls; ABC; object])
    = abstractmethods (pre ++ DynamicLibrary.mro).
Proof.
  split_and!.
  - apply type_lookup_app_ext, type_lookup_dynamic_then_hybrid.
  - apply abstractmethods_ext, type_lookup_app_ext,
      type_lookup_dynamic_then_hybrid.
  - apply abstractmethods_ext, type_lookup_app_ext,
      type_lookup_hybrid_then_dynamic.
Qed.

(** ** The base methods and the instance *)

Lemma base_method_keeps_state (m : string) (f : function) (self : attrs)
    (args : list value) :
  namespace DynamicLibrary.cls !! m = Some f →
  (code f self args).2 = self.
Proof.
  intros Hf.
  assert (m ∈ interface_methods) as Hm.
  { destruct (decide (m ∈ interface_methods)) as [|Hn]; [done|].
    by rewrite (not_interface_method_undefined m Hn) in Hf. }
  revert Hm Hf.
  unfold interface_methods, required_methods, optional_methods. simpl.
  rewrite !elem_of_cons, elem_of_nil.
  intros [->|[->|[->|[->|[->|[->|[->|[]]]]]]]] [= <-];
    by destruct args as [|? [|? [|? [|? ?]]]].
Qed.

(** X7: the seven methods [DynamicLibrary] defines never change the
    instance: called on a library that inherits them, with any arguments
    in any number, whether they return or raise, the library is afterwards
    as it was before. *)
Theorem base_methods_keep_instance (o : instance) (m : string)
    (args : list value) :
  m ∈ interface_methods →
  inherits_default o m →
  (call_method m args o).2 = o.
Proof.
  intros Hm [Hd (pre & post & Hmro & Hpre)].
  destruct (interface_method_defined m Hm) as [f Hf].
  rewrite (call_method_verbatim o m f); [|done|].
  - simpl. rewrite (base_method_keeps_state m f) by done. by destruct o.
  - rewrite Hmro, type_lookup_app_None by done.
    cbn [type_lookup]. by rewrite Hf.
Qed.

Lemma base_methods_keep_instance_witness :
  (call_method "get_keyword_types" [] (Instance Greeter.mro {["greeted" := VInt 3]})).2
    = Instance Greeter.mro {["greeted" := VInt 3]}.
Proof.
  apply base_methods_keep_instance.
  - unfold interface_methods, required_methods, optional_methods. simpl.
    elem_of_literal.
  - inherits_through [Greeter.cls] [ABC; object].
Defined.

Lemma optional_method_arity (m : string) (f : function) (self : attrs)
    (args : list value) :
  m ∈ optional_methods →
  namespace DynamicLibrary.cls !! m = Some f →
  length args ≠ 1 →
  code f self args = (Raise arity_error, self).
Proof.
  unfold optional_methods. rewrite !elem_of_cons, elem_of_nil.
  intros [->|[->|[->|[->|[->|[]]]]]] [= <-] Hlen;
    by destruct args as [|? [|? ?]].
Qed.

(** X8: the optional methods take exactly the keyword name: on a library
    that inherits one of them, a call without the name or with further
    positional arguments raises [TypeError] instead of returning [None],
    and leaves the library as it was. *)
Theorem optional_methods_take_one_name (o : instance) (m : string)
    (args : list value) :
  m ∈ optional_methods →
  inherits_default o m →
  length args ≠ 1 →
  call_method m args o = (Raise arity_error, o).
Proof.
  intros Hm [Hd (pre & post & Hmro & Hpre)] Hlen.
  destruct (optional_method_default m Hm) as (f & Hf & _).
  rewrite (call_method_verbatim o m f); [|done|].
  - rewrite (optional_method_arity m f) by done. by destruct o.
  - rewrite Hmro, type_lookup_app_None by done.
    cbn [type_lookup]. by rewrite Hf.
Qed.

Lemma optional_methods_take_one_name_witness :
  call_method "get_keyword_tags" [] Greeter.lib = (Raise arity_error, Greeter.lib) ∧
  call_method "get_keyword_tags" [VStr "Greet"; VStr "extra"] Greeter.lib
    = (Raise arity_error, Greeter.lib).
Proof.
  split.
  - apply optional_methods_take_one_name.
    + unfold optional_methods. elem_of_literal.
    + inherits_through [Greeter.cls] [ABC; object].
    + simpl. lia.
  - apply optional_methods_take_one_name.
    + unfold optional_methods. elem_of_literal.
    + inherits_through [Greeter.cls] [ABC; object].
    + simpl. lia.
Defined.
